(** * Volatility-regime pipeline of [cal.py]

    A shallow embedding of [analyze_regimes] and [save_to_excel] from
    [src/cal.py], together with the parts of pandas and of the Python
    standard library they call ([Series.quantile], [Series.pct_change],
    [DataFrame.groupby(...).mean()], [os.path.dirname], [os.makedirs]).

    Numbers.  A pandas float64 cell is modelled by [fval]: the three IEEE-754
    special values (NaN, -inf, +inf) are kept apart and follow the IEEE rules
    for arithmetic and comparison, while a finite value is an exact rational
    (rounding is not modelled, zero is the positive zero).  The six fetched
    columns come from JSON numbers and are finite rationals. *)

From Stdlib Require Import QArith Qround Lqa Ascii String.
From stdpp Require Import base list sorting strings gmap pretty.

(** ** Float cells *)

Inductive fval : Type :=
  | NaN
  | NInf
  | PInf
  | Fin (q : Q).

Module F.

(** [pd.isna]: only NaN is missing; the infinities are ordinary values. *)
Definition isna (v : fval) : bool :=
  match v with NaN => true | _ => false end.

Definition finite (v : fval) : bool :=
  match v with Fin _ => true | _ => false end.

(** The infinity (or NaN) that a nonzero (or zero) numerator gives when it
    is divided by zero, and that an infinity gives when it is multiplied by
    a finite factor: the sign is the result of comparing with zero. *)
Definition of_sign (c : comparison) : fval :=
  match c with Gt => PInf | Lt => NInf | Eq => NaN end.

Definition neg (v : fval) : fval :=
  match v with
  | NaN => NaN
  | NInf => PInf
  | PInf => NInf
  | Fin q => Fin (- q)
  end.

Definition add (a b : fval) : fval :=
  match a, b with
  | NaN, _ | _, NaN => NaN
  | PInf, NInf | NInf, PInf => NaN
  | PInf, _ | _, PInf => PInf
  | NInf, _ | _, NInf => NInf
  | Fin x, Fin y => Fin (x + y)
  end.

Definition sub (a b : fval) : fval := add a (neg b).

Definition mul (a b : fval) : fval :=
  match a, b with
  | NaN, _ | _, NaN => NaN
  | Fin x, Fin y => Fin (x * y)
  | PInf, Fin y | Fin y, PInf => of_sign (y ?= 0)%Q
  | NInf, Fin y | Fin y, NInf => of_sign (0 ?= y)%Q
  | PInf, PInf | NInf, NInf => PInf
  | PInf, NInf | NInf, PInf => NInf
  end.

Definition div (a b : fval) : fval :=
  match a, b with
  | NaN, _ | _, NaN => NaN
  | Fin x, Fin y =>
      if Qeq_bool y 0 then of_sign (x ?= 0)%Q else Fin (x / y)
  | Fin _, (PInf | NInf) => Fin 0
  | PInf, Fin y => if Qle_bool 0 y then PInf else NInf
  | NInf, Fin y => if Qle_bool 0 y then NInf else PInf
  | (PInf | NInf), (PInf | NInf) => NaN
  end.

(** Python's [a <= b] on floats: false as soon as one side is NaN. *)
Definition le (a b : fval) : bool :=
  match a, b with
  | NaN, _ | _, NaN => false
  | NInf, _ => true
  | _, PInf => true
  | Fin x, Fin y => Qle_bool x y
  | _, _ => false
  end.

(** Python's [a >= b]. *)
Definition ge (a b : fval) : bool := le b a.


(** Equality of cells as numbers: rationals are compared by value. *)
Definition eqv (a b : fval) : Prop :=
  match a, b with
  | NaN, NaN | NInf, NInf | PInf, PInf => True
  | Fin x, Fin y => (x == y)%Q
  | _, _ => False
  end.

(** The order used for sorting: the float order, with NaN last (as numpy
    sorts it). *)
Definition leb_sort (a b : fval) : bool := isna b || le a b.

Definition le_sort (a b : fval) : Prop := leb_sort a b = true.

Definition sum (l : list fval) : fval := foldr add (Fin 0) l.

(** Reduced form of a cell, to compare computed cells with literals. *)
Definition red (v : fval) : fval :=
  match v with Fin q => Fin (Qred q) | _ => v end.

End F.

#[global] Instance le_sort_dec a b : Decision (F.le_sort a b) :=
  bool_eq_dec (F.leb_sort a b) true.

(** ** [Series.dropna], [Series.quantile], [Series.mean] *)

Definition dropna (l : list fval) : list fval :=
  List.filter (fun v => negb (F.isna v)) l.

(** Linear interpolation [i + (j - i) * fraction] between two neighbouring
    order statistics. *)
Definition lerp (i j : fval) (fraction : Q) : fval :=
  F.add i (F.mul (F.sub j i) (Fin fraction)).

(** The fractional position [(n - 1) * q] of the [q]-quantile among [n]
    sorted values. *)
Definition position (n : nat) (q : Q) : Q :=
  (inject_Z (Z.of_nat n - 1) * q)%Q.

Definition interpolate (xs : list fval) (q : Q) : fval :=
  match xs with
  | [] => NaN
  | _ :: _ =>
      let h := position (length xs) q in
      let lo := Qfloor h in
      let hi := Qceiling h in
      lerp (default NaN (xs !! Z.to_nat lo)) (default NaN (xs !! Z.to_nat hi))
           (h - inject_Z lo)
  end.

(** [Series.quantile(q)] with the default [interpolation='linear']: missing
    values are dropped, the rest sorted, and the value at the fractional
    position [(n - 1) * q] is interpolated between the two closest ranks.
    An empty (or all-missing) column gives NaN. *)
Definition quantile (col : list fval) (q : Q) : fval :=
  interpolate (merge_sort F.le_sort (dropna col)) q.

(** Mean with [skipna=True]: the arithmetic mean of the non-missing cells,
    NaN when there is none. *)
Definition mean (col : list fval) : fval :=
  match dropna col with
  | [] => NaN
  | (_ :: _) as xs => F.div (F.sum xs) (Fin (inject_Z (Z.of_nat (length xs))))
  end.

(** [Series.shift(1)] and [Series.pct_change()], which pandas computes as
    [data / data.shift(1) - 1]. *)
Definition shift1 (col : list fval) : list fval :=
  take (length col) (NaN :: col).

Definition pct_change (col : list fval) : list fval :=
  zip_with (fun x p => F.sub (F.div x p) (Fin 1)) col (shift1 col).


(** ** The data frame *)

(** One fetched candle: the six columns kept by [fetch_upbit_data]. *)
Record DailyBar : Type := mkBar {
  date : Z;
  opening_price : Q;
  high_price : Q;
  low_price : Q;
  trade_price : Q;
  candle_acc_trade_volume : Q
}.

Inductive Regime : Type := LOW_VOL | MID_VOL | HIGH_VOL.

#[global] Instance Regime_eq_dec : EqDecision Regime.
Proof. solve_decision. Defined.

(** The label as the string that [label_regime] returns. *)
Definition regime_name (r : Regime) : string :=
  match r with
  | LOW_VOL => "LOW_VOL"
  | MID_VOL => "MID_VOL"
  | HIGH_VOL => "HIGH_VOL"
  end.

(** The frame object: the fetched rows and the three columns that
    [analyze_regimes] assigns in place ([None] while a column is absent). *)
Record DataFrame : Type := mkDF {
  bars : list DailyBar;
  col_volatility : option (list fval);
  col_return : option (list fval);
  col_regime : option (list Regime)
}.

Definition fetched (bs : list DailyBar) : DataFrame :=
  mkDF bs None None None.

(** ** The regime classifier (cal.py, lines 56-73) *)

(** [(df["high_price"] - df["low_price"]) / df["trade_price"]] *)
Definition volatility_col (bs : list DailyBar) : list fval :=
  (fun b => F.div (Fin (high_price b - low_price b)) (Fin (trade_price b)))
    <$> bs.

(** [df["trade_price"].pct_change()] *)
Definition return_col (bs : list DailyBar) : list fval :=
  pct_change ((fun b => Fin (trade_price b)) <$> bs).

Definition label_regime (low_thr high_thr v : fval) : Regime :=
  if F.le v low_thr then LOW_VOL
  else if F.ge v high_thr then HIGH_VOL
  else MID_VOL.

Definition low_thr (bs : list DailyBar) : fval :=
  quantile (volatility_col bs) (3 # 10).

Definition high_thr (bs : list DailyBar) : fval :=
  quantile (volatility_col bs) (7 # 10).

(** [df["volatility"].apply(label_regime)]: the function is applied to every
    cell, the missing ones included. *)
Definition regime_col (bs : list DailyBar) : list Regime :=
  label_regime (low_thr bs) (high_thr bs) <$> volatility_col bs.

Definition volume_col (bs : list DailyBar) : list fval :=
  (fun b => Fin (candle_acc_trade_volume b)) <$> bs.

(** ** The regime aggregator (cal.py, line 79) *)

Record RegimeStats : Type := mkStats {
  mean_return : fval;
  mean_volatility : fval;
  mean_volume : fval
}.

(** [groupby] sorts the group keys; the keys are Python strings. *)
Definition name_le (r1 r2 : Regime) : Prop :=
  String.leb (regime_name r1) (regime_name r2) = true.

#[global] Instance name_le_dec r1 r2 : Decision (name_le r1 r2) :=
  bool_eq_dec (String.leb (regime_name r1) (regime_name r2)) true.

Definition group_keys (keys : list Regime) : list Regime :=
  merge_sort name_le (remove_dups keys).

(** The cells of [col] in the rows whose key is [k]. *)
Definition select {A : Type} (k : Regime) (keys : list Regime) (col : list A)
  : list A :=
  snd <$> filter (fun p => fst p = k) (zip keys col).

(** [df.groupby("regime")[["return", "volatility",
    "candle_acc_trade_volume"]].mean()] *)
Definition groupby_mean (keys : list Regime) (rets vols volumes : list fval)
  : list (Regime * RegimeStats) :=
  (fun k => (k, mkStats (mean (select k keys rets))
                        (mean (select k keys vols))
                        (mean (select k keys volumes))))
    <$> group_keys keys.

Definition regime_stats (bs : list DailyBar) : list (Regime * RegimeStats) :=
  groupby_mean (regime_col bs) (return_col bs) (volatility_col bs)
               (volume_col bs).

(** ** Paths ([posixpath]) *)

Module Path.

Definition is_sep (c : ascii) : bool := Ascii.eqb c "/".

Fixpoint has_sep (p : string) : bool :=
  match p with
  | EmptyString => false
  | String c r => is_sep c || has_sep r
  end.

Fixpoint all_sep (p : string) : bool :=
  match p with
  | EmptyString => true
  | String c r => is_sep c && all_sep r
  end.

Definition nonempty (p : string) : bool :=
  match p with EmptyString => false | String _ _ => true end.

(** [p[:p.rfind('/') + 1]] *)
Fixpoint upto_last_sep (p : string) : string :=
  match p with
  | EmptyString => EmptyString
  | String c r =>
      if is_sep c || has_sep r then String c (upto_last_sep r)
      else EmptyString
  end.

(** [p[p.rfind('/') + 1:]] *)
Fixpoint after_last_sep (p : string) : string :=
  match p with
  | EmptyString => EmptyString
  | String c r => if is_sep c || has_sep r then after_last_sep r else p
  end.

(** [head.rstrip('/')] *)
Fixpoint rstrip_sep (p : string) : string :=
  match p with
  | EmptyString => EmptyString
  | String c r =>
      match rstrip_sep r with
      | EmptyString => if is_sep c then EmptyString else String c EmptyString
      | r' => String c r'
      end
  end.

(** [if head and head != sep*len(head): head = head.rstrip(sep)] *)
Definition strip_head (head : string) : string :=
  if nonempty head && negb (all_sep head) then rstrip_sep head else head.

Definition dirname (p : string) : string := strip_head (upto_last_sep p).

Definition split (p : string) : string * string :=
  (strip_head (upto_last_sep p), after_last_sep p).

End Path.

(** ** The file system and the sinks *)

Inductive exn : Type :=
  | FileNotFoundError (path : string)
  | FileExistsError (path : string)
  | IsADirectoryError (path : string)
  | RecursionError.

Inductive FileContent : Type :=
  | Xlsx (df : DataFrame)
  | Csv (table : list (Regime * RegimeStats)).

(** Directories and regular files, by path as written, relative to the
    working directory (which exists and has the empty name as its
    [dirname]).  A directory is recorded without trailing separators;
    dot components, links and permissions are not modelled. *)
Record FS : Type := mkFS {
  dirs : gset string;
  files : gmap string FileContent
}.

Module Os.

(** [os.path.isdir], [os.path.isfile]: the empty path names nothing. *)
Definition isdir (p : string) (fs : FS) : bool :=
  Path.nonempty p && bool_decide (Path.strip_head p ∈ dirs fs).

Definition isfile (p : string) (fs : FS) : bool :=
  Path.nonempty p && bool_decide (is_Some (files fs !! p)).

Definition exists_ (p : string) (fs : FS) : bool := isdir p fs || isfile p fs.

Definition parent_ok (p : string) (fs : FS) : bool :=
  negb (Path.nonempty (Path.dirname (Path.strip_head p)))
  || isdir (Path.dirname (Path.strip_head p)) fs.

(** [os.mkdir]: the empty path and a path below a missing directory are
    ENOENT, an existing path is EEXIST. *)
Definition mkdir (p : string) (fs : FS) : exn + FS :=
  if negb (Path.nonempty p) then inl (FileNotFoundError p)
  else if exists_ p fs then inl (FileExistsError p)
  else if negb (parent_ok p fs) then inl (FileNotFoundError p)
  else inr (mkFS ({[ Path.strip_head p ]} ∪ dirs fs) (files fs)).

(** [os.makedirs(name, exist_ok=...)], with the recursion of the library
    function on the head of the path bounded by [fuel]. *)
Fixpoint makedirs_rec (fuel : nat) (name : string) (exist_ok : bool) (fs : FS)
  : exn + FS :=
  match fuel with
  | O => inl RecursionError
  | S fuel' =>
      let '(head, tail) := Path.split name in
      let '(head, tail) :=
        if Path.nonempty tail then (head, tail) else Path.split head in
      let finish (fs1 : FS) : exn + FS :=
        match mkdir name fs1 with
        | inr fs2 => inr fs2
        | inl e => if negb exist_ok || negb (isdir name fs1) then inl e
                   else inr fs1
        end in
      if Path.nonempty head && Path.nonempty tail && negb (exists_ head fs)
      then
        match makedirs_rec fuel' head exist_ok fs with
        | inl (FileExistsError _) =>
            if String.eqb tail "." then inr fs else finish fs
        | inl e => inl e
        | inr fs1 => if String.eqb tail "." then inr fs1 else finish fs1
        end
      else finish fs
  end.

Definition makedirs (name : string) (exist_ok : bool) (fs : FS) : exn + FS :=
  makedirs_rec (S (String.length name)) name exist_ok fs.

(** Opening [path] for writing and storing [content] in it. *)
Definition write_file (path : string) (content : FileContent) (fs : FS)
  : exn + FS :=
  if negb (Path.nonempty path) then inl (FileNotFoundError path)
  else if isdir path fs then inl (IsADirectoryError path)
  else if negb (parent_ok path fs) then inl (FileNotFoundError path)
  else inr (mkFS (dirs fs) (<[ path := content ]> (files fs))).

End Os.

(** ** Programs: state (the frame object and the disk) and exceptions *)

Record World : Type := mkWorld {
  frame : DataFrame;
  disk : FS
}.

Inductive Result (A : Type) : Type :=
  | Ok (a : A)
  | Raise (e : exn).

Arguments Ok {A} a.
Arguments Raise {A} e.

Definition M (A : Type) : Type := World -> Result A * World.

#[global] Instance M_ret : MRet M := fun A a w => (Ok a, w).

#[global] Instance M_bind : MBind M := fun A B k m w =>
  match m w with
  | (Ok a, w') => k a w'
  | (Raise e, w') => (Raise e, w')
  end.

Definition get_frame : M DataFrame := fun w => (Ok (frame w), w).

Definition modify_frame (f : DataFrame -> DataFrame) : M unit :=
  fun w => (Ok tt, mkWorld (f (frame w)) (disk w)).

(** An operation on the disk: the disk is unchanged when it raises. *)
Definition on_disk (op : FS -> exn + FS) : M unit :=
  fun w =>
    match op (disk w) with
    | inl e => (Raise e, w)
    | inr fs => (Ok tt, mkWorld (frame w) fs)
    end.

(** [df["volatility"] = col], [df["return"] = col], [df["regime"] = col] *)
Definition set_volatility (col : list fval) (df : DataFrame) : DataFrame :=
  mkDF (bars df) (Some col) (col_return df) (col_regime df).

Definition set_return (col : list fval) (df : DataFrame) : DataFrame :=
  mkDF (bars df) (col_volatility df) (Some col) (col_regime df).

Definition set_regime (col : list Regime) (df : DataFrame) : DataFrame :=
  mkDF (bars df) (col_volatility df) (col_return df) (Some col).

(** cal.py, lines 39-45 (without the printed message). *)
Definition save_to_excel (filename : string) : M unit :=
  df ← get_frame;
  on_disk (Os.makedirs (Path.dirname filename) true);;
  on_disk (Os.write_file filename (Xlsx df)).

(** cal.py, lines 51-83 (the progress messages printed to the console are
    left out). *)
Definition analyze_regimes (stats_filename : string) : M DataFrame :=
  df ← get_frame;
  let bs := bars df in
  modify_frame (set_volatility (volatility_col bs));;
  modify_frame (set_return (return_col bs));;
  modify_frame (set_regime (regime_col bs));;
  on_disk (Os.makedirs (Path.dirname stats_filename) true);;
  let stats := regime_stats bs in
  on_disk (Os.write_file stats_filename (Csv stats));;
  get_frame.

(** The frame after lines 56-73: the fetched rows with the three derived
    columns. *)
Definition classified (df : DataFrame) : DataFrame :=
  mkDF (bars df) (Some (volatility_col (bars df)))
       (Some (return_col (bars df))) (Some (regime_col (bars df))).

(** A call [f(df, ...)] on a frame and a disk. *)
Definition call {A : Type} (m : M A) (df : DataFrame) (fs : FS)
  : Result A * World :=
  m (mkWorld df fs).

(** ** Sample inputs *)

(** What the specification requires of a fetched series (its data model):
    non-negative numbers, [low <= open, close <= high], and strictly
    increasing dates. *)
Definition valid_bar (b : DailyBar) : bool :=
  Qle_bool 0 (low_price b)
  && Qle_bool (low_price b) (opening_price b)
  && Qle_bool (opening_price b) (high_price b)
  && Qle_bool (low_price b) (trade_price b)
  && Qle_bool (trade_price b) (high_price b)
  && Qle_bool 0 (candle_acc_trade_volume b).

Fixpoint ascending (bs : list DailyBar) : bool :=
  match bs with
  | b1 :: rest =>
      match rest with
      | b2 :: _ => (date b1 <? date b2)%Z && ascending rest
      | [] => true
      end
  | [] => true
  end.

Definition valid_series (bs : list DailyBar) : bool :=
  forallb valid_bar bs && ascending bs.

(** date, open, high, low, close, volume *)
Definition bar_calm : DailyBar := mkBar 1 1 2 1 1 7.
Definition bar_wild : DailyBar := mkBar 2 1 3 1 1 9.
(** A candle whose close is zero and whose range is zero. *)
Definition bar_flat_zero : DailyBar := mkBar 3 0 0 0 0 5.
(** A candle whose close is zero and whose range is not. *)
Definition bar_zero_close : DailyBar := mkBar 4 1 2 0 0 7.
Definition bar_after_zero : DailyBar := mkBar 5 5 6 4 5 3.

(** Five candles with closes 100, 102, 101, 105, 103 and volatilities of
    1, 2, 3, 4 and 5 percent. *)
Definition five_bars : list DailyBar :=
  [ mkBar 1 100 101 100 100 10;
    mkBar 2 102 (10404 # 100) 102 102 20;
    mkBar 3 101 (10403 # 100) 101 101 30;
    mkBar 4 105 (1092 # 10) 105 105 40;
    mkBar 5 103 (10815 # 100) 103 103 50 ].

(** Three candles with the same volatility. *)
Definition level_bars : list DailyBar :=
  [ mkBar 1 1 2 1 1 7; mkBar 2 2 4 2 2 8; mkBar 3 3 6 3 3 9 ].

Definition empty_disk : FS := mkFS ∅ ∅.

(** ** Order of the labels *)

(** LOW_VOL below MID_VOL below HIGH_VOL. *)
Definition regime_rank (r : Regime) : nat :=
  match r with LOW_VOL => 0 | MID_VOL => 1 | HIGH_VOL => 2 end.

(** A cell that is not an infinity (a number or a missing cell). *)
Definition no_infinity (v : fval) : Prop := v <> PInf /\ v <> NInf.


(** ** Fetching the candles (cal.py, lines 10-33, and import.py) *)

(** One object of the JSON list that the API returns, with the keys that
    the source reads (the other keys are dropped by the column selection). *)
Module Candle.

Record t : Type := mk {
  candle_date_time_kst : string;
  opening_price : Q;
  high_price : Q;
  low_price : Q;
  trade_price : Q;
  candle_acc_trade_volume : Q
}.

End Candle.

(** The outcome of [requests.get]: an exception of the transport, or a reply
    with a status code and a body.  Only bodies that are a JSON list of
    candle objects are modelled. *)
Inductive Response : Type :=
  | ConnectionFailed
  | Reply (status_code : Z) (data : list Candle.t).

(** The exceptions of the fetching and plotting functions, beside those of
    the disk. *)
Inductive error : Type :=
  | OsError (e : exn)
  | KeyError
  | HTTPError (status_code : Z)
  | ConnectionError.

(** [Response.raise_for_status] raises for the codes 400 to 599. *)
Definition is_error_status (status_code : Z) : bool :=
  (400 <=? status_code)%Z && (status_code <? 600)%Z.

Definition date_le (b1 b2 : DailyBar) : Prop := (date b1 <= date b2)%Z.

#[global] Instance date_le_dec b1 b2 : Decision (date_le b1 b2).
Proof. unfold date_le. apply _. Defined.

Section Fetch.

(** The network and [pd.to_datetime] are outside the repository. *)
Variable http_get : string -> Response.
Variable to_datetime : string -> Z.

(** [f"https://api.upbit.com/v1/candles/days?market={market}&count={count}"] *)
Definition candles_url (market : string) (count : Z) : string :=
  "https://api.upbit.com/v1/candles/days?market=" +:+ market
  +:+ "&count=" +:+ pretty count.

(** The row kept of a candle: the parsed date and the five selected
    columns. *)
Definition to_bar (c : Candle.t) : DailyBar :=
  mkBar (to_datetime (Candle.candle_date_time_kst c))
        (Candle.opening_price c) (Candle.high_price c) (Candle.low_price c)
        (Candle.trade_price c) (Candle.candle_acc_trade_volume c).

(** [pd.DataFrame(data)], the date column, the column selection and
    [sort_values("date")].  An empty list gives a frame without columns, on
    which [df["candle_date_time_kst"]] raises [KeyError].  (Rows with equal
    dates keep their order here; the API sends one candle per day.) *)
Definition frame_of_candles (data : list Candle.t) : error + DataFrame :=
  match data with
  | [] => inl KeyError
  | _ :: _ => inr (fetched (merge_sort date_le (to_bar <$> data)))
  end.

(** cal.py, lines 10-33 *)
Definition fetch_upbit_data (market : string) (count : Z)
  : error + DataFrame :=
  match http_get (candles_url market count) with
  | ConnectionFailed => inl ConnectionError
  | Reply status_code data =>
      if is_error_status status_code then inl (HTTPError status_code)
      else frame_of_candles data
  end.


(** cal.py, lines 157-165: [main] up to the charts (without the printed
    messages). *)
Definition main_before_charts (fs : FS) : (error + DataFrame) * FS :=
  match fetch_upbit_data "KRW-BTC" 365 with
  | inl e => (inl e, fs)
  | inr df =>
      match call (save_to_excel "data/btc_data.xlsx") df fs with
      | (Raise e, w) => (inl (OsError e), disk w)
      | (Ok _, w) =>
          match call (analyze_regimes "output/regime_stats.csv")
                  (frame w) (disk w) with
          | (Raise e, w') => (inl (OsError e), disk w')
          | (Ok df', w') => (inr df', disk w')
          end
      end
  end.

End Fetch.

(** ** The price chart (cal.py, lines 89-116) *)







(** ** A sample reply *)

(** The digits of a timestamp read as one number: an order-preserving
    stand-in for [pd.to_datetime] on timestamps of one format. *)
Fixpoint digits_value (acc : Z) (s : string) : Z :=
  match s with
  | EmptyString => acc
  | String c r =>
      let n := Z.of_N (Ascii.N_of_ascii c) in
      if (48 <=? n)%Z && (n <=? 57)%Z then digits_value (acc * 10 + (n - 48)) r
      else digits_value acc r
  end.

Definition sample_to_datetime (s : string) : Z := digits_value 0 s.

(** Three candles, newest first. *)
Definition sample_candles : list Candle.t :=
  [ Candle.mk "2024-01-03T09:00:00" 101 (10403 # 100) 101 101 30;
    Candle.mk "2024-01-02T09:00:00" 102 (10404 # 100) 102 102 20;
    Candle.mk "2024-01-01T09:00:00" 100 101 100 100 10 ].

Definition sample_http (url : string) : Response :=
  if String.eqb url
       "https://api.upbit.com/v1/candles/days?market=KRW-BTC&count=365"
  then Reply 200 sample_candles
  else Reply 404 [].

(** A disk on which [output] and [data] are regular files. *)
Definition disk_output_taken : FS := mkFS ∅ {[ "output" := Csv [] ]}.
Definition disk_data_taken : FS := mkFS ∅ {[ "data" := Csv [] ]}.

(* ================================================================= *)
(** * Properties *)

(** ** The functions on small inputs *)

Example sample_inputs_valid :
  forallb valid_series
    [ [bar_calm]; [bar_calm; bar_wild]; [bar_flat_zero]; [bar_zero_close];
      [bar_calm; bar_flat_zero]; [bar_calm; bar_zero_close];
      [bar_calm; bar_wild; bar_flat_zero]; [bar_zero_close; bar_after_zero];
      [bar_calm; bar_zero_close; bar_after_zero]; five_bars; level_bars ]
  = true.
Proof. reflexivity. Qed.

Example quantile_five :
  F.red (quantile [Fin 5; Fin 1; NaN; Fin 4; Fin 2; Fin 3] (3 # 10))
  = Fin (11 # 5)
  /\ F.red (quantile [Fin 5; Fin 1; NaN; Fin 4; Fin 2; Fin 3] (7 # 10))
     = Fin (19 # 5).
Proof. vm_compute. split; reflexivity. Qed.

Example pct_change_four :
  F.red <$> pct_change [Fin 100; Fin 102; Fin 0; Fin 5]
  = [NaN; Fin (1 # 50); Fin (- 1); PInf].
Proof. vm_compute. reflexivity. Qed.

Example five_bars_classified :
  F.red <$> volatility_col five_bars
  = [Fin (1 # 100); Fin (1 # 50); Fin (3 # 100); Fin (1 # 25); Fin (1 # 20)]
  /\ F.red (low_thr five_bars) = Fin (11 # 500)
  /\ F.red (high_thr five_bars) = Fin (19 # 500)
  /\ regime_col five_bars = [LOW_VOL; LOW_VOL; MID_VOL; HIGH_VOL; HIGH_VOL]
  /\ F.red <$> return_col five_bars
     = [NaN; Fin (1 # 50); Fin (- 1 # 102); Fin (4 # 101); Fin (- 2 # 105)].
Proof. vm_compute. repeat split; reflexivity. Qed.

Example five_bars_stats :
  (fun '(k, st) =>
     (k, F.red (mean_return st), F.red (mean_volatility st),
      F.red (mean_volume st))) <$> regime_stats five_bars
  = [ (HIGH_VOL, Fin (109 # 10605), Fin (9 # 200), Fin 45);
      (LOW_VOL, Fin (1 # 50), Fin (3 # 200), Fin 15);
      (MID_VOL, Fin (- 1 # 102), Fin (3 # 100), Fin 30) ].
Proof. vm_compute. reflexivity. Qed.

Example dirname_samples :
  Path.dirname "output/regime_stats.csv" = "output"
  /\ Path.dirname "data/btc_data.xlsx" = "data"
  /\ Path.dirname "regime_stats.csv" = ""
  /\ Path.dirname "a/b//c.csv" = "a/b"
  /\ Path.dirname "/x" = "/".
Proof. repeat split; reflexivity. Qed.

Example makedirs_nested :
  match Os.makedirs "a/b/c/" true empty_disk with
  | inr fs => elements (dirs fs) = ["a/b/c"; "a/b"; "a"]
  | inl _ => False
  end.
Proof. vm_compute. reflexivity. Qed.

(** ** Float cells *)

Lemma Qle_bool_true x y : Qle_bool x y = true <-> (x <= y)%Q.
Proof. apply Qle_bool_iff. Qed.

Lemma le_Fin x y : F.le (Fin x) (Fin y) = true <-> (x <= y)%Q.
Proof. apply Qle_bool_iff. Qed.

#[global] Instance le_sort_trans : Transitive F.le_sort.
Proof.
  intros a b c. unfold F.le_sort, F.leb_sort.
  destruct a, b, c; simpl; try done.
  rewrite !Qle_bool_true. lra.
Qed.

#[global] Instance le_sort_total : Total F.le_sort.
Proof.
  intros a b. unfold F.le_sort, F.leb_sort.
  destruct a, b; simpl; auto.
  rewrite !Qle_bool_true. destruct (Qlt_le_dec q q0); [left|right]; lra.
Qed.

#[global] Instance le_sort_refl : Reflexive F.le_sort.
Proof. intros a. destruct (total F.le_sort a a); done. Qed.

Lemma le_sort_le a b :
  F.isna b = false -> F.le_sort a b -> F.le a b = true.
Proof. unfold F.le_sort, F.leb_sort. intros ->. done. Qed.

(** ** Sorted columns *)

Lemma sorted_lookup_le {A} (R : relation A) `{!Reflexive R} (l : list A) i j a b :
  StronglySorted R l -> (i <= j)%nat ->
  l !! i = Some a -> l !! j = Some b -> R a b.
Proof.
  intros Hs. revert i j. induction Hs as [|x l Hs IH Hx]; intros i j Hij Hi Hj.
  - done.
  - destruct i as [|i], j as [|j]; simpl in *.
    + by simplify_eq.
    + simplify_eq. rewrite Forall_forall in Hx. apply Hx.
      by eapply list_elem_of_lookup_2.
    + lia.
    + eapply IH; [|done..]. lia.
Qed.

Lemma dropna_not_nan col : Forall (fun v => F.isna v = false) (dropna col).
Proof.
  unfold dropna. apply Forall_forall. intros v Hv.
  apply list_elem_of_In, filter_In in Hv as [_ Hv].
  by destruct (F.isna v).
Qed.

Lemma sorted_dropna col xs :
  xs = merge_sort F.le_sort (dropna col) ->
  StronglySorted F.le_sort xs /\ Forall (fun v => F.isna v = false) xs
  /\ length xs = length (dropna col).
Proof.
  intros ->. split; [|split].
  - apply (StronglySorted_merge_sort _).
  - rewrite merge_sort_Permutation. apply dropna_not_nan.
  - by rewrite merge_sort_Permutation.
Qed.

(** ** The fractional position [(n - 1) * q] and its two closest ranks *)

Lemma inject_Z_nonneg m : (0 <= m)%Z -> (0 <= inject_Z m)%Q.
Proof. intros H. change 0%Q with (inject_Z 0). by rewrite <- Zle_Qle. Qed.

Lemma position_bounds n q :
  (1 <= n)%nat -> (0 <= q)%Q -> (q <= 1)%Q ->
  (0 <= Qfloor (position n q))%Z
  /\ (Qfloor (position n q) <= Qceiling (position n q))%Z
  /\ (Qceiling (position n q) <= Z.of_nat n - 1)%Z
  /\ (Qceiling (position n q) <= Qfloor (position n q) + 1)%Z
  /\ (0 <= position n q - inject_Z (Qfloor (position n q)))%Q
  /\ (position n q - inject_Z (Qfloor (position n q)) < 1)%Q.
Proof.
  intros Hn Hq0 Hq1. unfold position.
  set (m := (Z.of_nat n - 1)%Z). set (h := (inject_Z m * q)%Q).
  assert (Hm : (0 <= inject_Z m)%Q) by (apply inject_Z_nonneg; unfold m; lia).
  assert (Hh0 : (0 <= h)%Q) by (unfold h; nra).
  assert (Hh1 : (h <= inject_Z m)%Q) by (unfold h; nra).
  pose proof (Qfloor_le h) as Hfl. pose proof (Qlt_floor h) as Hfu.
  pose proof (Qle_ceiling h) as Hcl. pose proof (Qceiling_lt h) as Hcu.
  split; [|split; [|split; [|split; [|split]]]].
  - apply (Qfloor_resp_le (inject_Z 0) h) in Hh0. by rewrite Qfloor_Z in Hh0.
  - rewrite Zle_Qle. apply Qle_floor_ceiling.
  - apply Qceiling_resp_le in Hh1. by rewrite Qceiling_Z in Hh1.
  - assert (Hlt : (inject_Z (Qceiling h - 1) < inject_Z (Qfloor h + 1))%Q)
      by lra.
    rewrite <- Zlt_Qlt in Hlt. lia.
  - lra.
  - rewrite inject_Z_plus in Hfu. change (inject_Z 1) with 1%Q in Hfu. lra.
Qed.


(** On a non-empty column both ranks are inside the column. *)
Lemma interpolate_unfold xs q :
  xs <> [] -> (0 <= q)%Q -> (q <= 1)%Q ->
  exists a b,
    xs !! Z.to_nat (Qfloor (position (length xs) q)) = Some a
    /\ xs !! Z.to_nat (Qceiling (position (length xs) q)) = Some b
    /\ interpolate xs q
       = lerp a b (position (length xs) q
                   - inject_Z (Qfloor (position (length xs) q))).
Proof.
  intros Hne Hq0 Hq1.
  assert (Hlen : (1 <= length xs)%nat).
  { destruct xs; [done | simpl; lia]. }
  destruct (position_bounds (length xs) q Hlen Hq0 Hq1)
    as (Hf0 & Hfc & Hcn & _).
  destruct (lookup_lt_is_Some_2 xs
              (Z.to_nat (Qfloor (position (length xs) q)))) as [a Ha]; [lia|].
  destruct (lookup_lt_is_Some_2 xs
              (Z.to_nat (Qceiling (position (length xs) q)))) as [b Hb]; [lia|].
  exists a, b. split; [done|]. split; [done|].
  unfold interpolate. destruct xs as [|x0 xs']; [done|].
  by rewrite Ha, Hb.
Qed.

Lemma quantile_empty col q : dropna col = [] -> quantile col q = NaN.
Proof. intros H. unfold quantile. by rewrite H. Qed.

(** ** Interpolation *)






(** ** The classifier's columns, bar by bar *)


Lemma regime_col_lookup bs i :
  regime_col bs !! i
  = label_regime (low_thr bs) (high_thr bs) <$> volatility_col bs !! i.
Proof. unfold regime_col. apply list_lookup_fmap. Qed.

Lemma label_regime_nan lo hi : label_regime lo hi NaN = MID_VOL.
Proof. unfold label_regime, F.ge. simpl. by destruct hi. Qed.

Lemma label_regime_no_thresholds v : label_regime NaN NaN v = MID_VOL.
Proof. unfold label_regime, F.ge. by destruct v. Qed.

Lemma eqv_le a b : F.isna a = false -> F.eqv a b -> F.le a b = true.
Proof.
  destruct a, b; simpl; try done.
  intros _ H. apply Qle_bool_iff. lra.
Qed.

Lemma eqv_sym a b : F.eqv a b -> F.eqv b a.
Proof. destruct a, b; simpl; done. Qed.

(** C1.  A bar whose volatility [v] is defined is labelled LOW_VOL when
    [v <= low_thr], otherwise HIGH_VOL when [v >= high_thr], otherwise
    MID_VOL, with the thresholds computed by the classifier; both bounds are
    inclusive, and a value equal to both thresholds is LOW_VOL. *)
Theorem label_rule bs i v :
  volatility_col bs !! i = Some v ->
  F.isna v = false ->
  regime_col bs !! i
  = Some (if F.le v (low_thr bs) then LOW_VOL
          else if F.ge v (high_thr bs) then HIGH_VOL
          else MID_VOL)
  /\ (F.eqv v (low_thr bs) -> regime_col bs !! i = Some LOW_VOL)
  /\ (F.le v (low_thr bs) = false -> F.eqv v (high_thr bs) ->
      regime_col bs !! i = Some HIGH_VOL)
  /\ (F.eqv v (low_thr bs) -> F.eqv v (high_thr bs) ->
      regime_col bs !! i = Some LOW_VOL).
Proof.
  intros Hv Hn. rewrite regime_col_lookup, Hv. simpl. unfold label_regime.
  split; [done|]. split; [|split].
  - intros He. by rewrite (eqv_le _ _ Hn He).
  - intros Hlo He. rewrite Hlo. unfold F.ge.
    rewrite (eqv_le (high_thr bs) v); [done| |by apply eqv_sym].
    destruct v, (high_thr bs); done.
  - intros He _. by rewrite (eqv_le _ _ Hn He).
Qed.

Lemma label_rule_witness :
  regime_col [bar_calm; bar_wild] !! 1%nat = Some HIGH_VOL.
Proof.
  destruct (label_rule [bar_calm; bar_wild] 1 (Fin (2 # 1)))
    as (H & _); [reflexivity | reflexivity | exact H].
Defined.

(** ** Thresholds *)

Lemma interpolate_finite xs q :
  xs <> [] -> Forall (fun v => F.finite v = true) xs ->
  (0 <= q)%Q -> (q <= 1)%Q -> F.finite (interpolate xs q) = true.
Proof.
  intros Hne Hfin Hq0 Hq1.
  destruct (interpolate_unfold xs q Hne Hq0 Hq1) as (a & b & Ha & Hb & ->).
  rewrite Forall_forall in Hfin.
  pose proof (Hfin a (list_elem_of_lookup_2 _ _ _ Ha)).
  pose proof (Hfin b (list_elem_of_lookup_2 _ _ _ Hb)).
  by destruct a, b.
Qed.

Lemma dropna_finite col :
  Forall (fun v => F.finite v = true) col -> dropna col = col.
Proof.
  unfold dropna. induction 1 as [|v col Hv _ IH]; [done|].
  simpl. rewrite IH. by destruct v.
Qed.

(** With no zero close every volatility, and so each threshold, is a finite
    number. *)
Lemma thresholds_finite bs :
  bs <> [] -> Forall (fun b => ~ (trade_price b == 0)%Q) bs ->
  F.finite (low_thr bs) = true /\ F.finite (high_thr bs) = true.
Proof.
  intros Hne Hc.
  assert (Hfin : Forall (fun v => F.finite v = true) (volatility_col bs)).
  { unfold volatility_col. apply Forall_fmap.
    eapply Forall_impl; [exact Hc|]. intros b Hb. simpl.
    destruct (Qeq_bool (trade_price b) 0) eqn:E; [|done].
    by apply Qeq_bool_iff in E. }
  assert (Hs : Forall (fun v => F.finite v = true)
                 (merge_sort F.le_sort (dropna (volatility_col bs)))).
  { by rewrite merge_sort_Permutation, dropna_finite. }
  assert (Hn : merge_sort F.le_sort (dropna (volatility_col bs)) <> []).
  { intros E. apply (f_equal length) in E. revert E.
    rewrite merge_sort_Permutation, dropna_finite by done.
    unfold volatility_col. rewrite length_fmap. by destruct bs. }
  unfold low_thr, high_thr, quantile.
  split; apply interpolate_finite; try done; lra.
Qed.





(** The thresholds coincide on a degenerate distribution. *)
Example thresholds_equal_degenerate :
  F.eqv (low_thr level_bars) (high_thr level_bars).
Proof. vm_compute. reflexivity. Qed.

(** ** Fewer than two defined volatilities *)

Lemma elem_of_dropna col v :
  v ∈ dropna col <-> v ∈ col /\ F.isna v = false.
Proof.
  unfold dropna. rewrite !list_elem_of_In, filter_In, negb_true_iff. done.
Qed.

Lemma interpolate_singleton x q : F.eqv (interpolate [Fin x] q) (Fin x).
Proof.
  assert (Hp : (position 1 q == 0)%Q).
  { unfold position. change (Z.of_nat 1 - 1)%Z with 0%Z. ring. }
  unfold interpolate. change (length [Fin x]) with 1%nat.
  rewrite (Qfloor_comp _ _ Hp), (Qceiling_comp _ _ Hp).
  change (Qfloor 0) with 0%Z. change (Qceiling 0) with 0%Z.
  simpl. ring.
Qed.

Lemma quantile_singleton col x q :
  dropna col = [Fin x] -> F.eqv (quantile col q) (Fin x).
Proof.
  intros E. unfold quantile. rewrite E.
  pose proof (merge_sort_Permutation F.le_sort [Fin x]) as Hp.
  apply Permutation_singleton_r in Hp. rewrite Hp.
  apply interpolate_singleton.
Qed.

(** A single bar with a nonzero close is LOW_VOL: its volatility is equal
    to both thresholds. *)
Lemma single_bar_label b :
  ~ (trade_price b == 0)%Q -> regime_col [b] = [LOW_VOL].
Proof.
  intros Hc.
  assert (Hv : volatility_col [b]
               = [Fin ((high_price b - low_price b) / trade_price b)]).
  { unfold volatility_col. simpl.
    destruct (Qeq_bool (trade_price b) 0) eqn:E; [|done].
    by apply Qeq_bool_iff in E. }
  unfold regime_col, low_thr, high_thr. rewrite Hv. simpl. f_equal.
  set (x := ((high_price b - low_price b) / trade_price b)%Q).
  pose proof (quantile_singleton [Fin x] x (3 # 10) eq_refl) as Hlo.
  unfold label_regime.
  by rewrite (eqv_le (Fin x) _ eq_refl (eqv_sym _ _ Hlo)).
Qed.

(** C3 (amended).  With fewer than two defined volatilities, none of them
    infinite: if there is none, both thresholds are undefined and every bar
    is MID_VOL; if there is one, both thresholds are equal to it, the bar
    that carries it is LOW_VOL and every other bar is MID_VOL. *)
Theorem thresholds_collapse bs :
  (length (dropna (volatility_col bs)) < 2)%nat ->
  Forall (fun v => v <> PInf /\ v <> NInf) (volatility_col bs) ->
  match dropna (volatility_col bs) with
  | [] =>
      low_thr bs = NaN /\ high_thr bs = NaN
      /\ forall i r, regime_col bs !! i = Some r -> r = MID_VOL
  | v :: _ =>
      F.eqv (low_thr bs) v /\ F.eqv (high_thr bs) v
      /\ forall i c, volatility_col bs !! i = Some c ->
           regime_col bs !! i
           = Some (if F.isna c then MID_VOL else LOW_VOL)
  end.
Proof.
  intros Hlen Hinf.
  destruct (dropna (volatility_col bs)) as [|v [|w l]] eqn:E.
  - unfold low_thr, high_thr. rewrite !quantile_empty by done.
    split; [done|]. split; [done|].
    intros i r. rewrite regime_col_lookup.
    destruct (volatility_col bs !! i) as [c|]; [|done]. simpl.
    unfold low_thr, high_thr. rewrite !quantile_empty by done.
    rewrite label_regime_no_thresholds. congruence.
  - assert (Hv : v ∈ dropna (volatility_col bs)) by (rewrite E; set_solver).
    apply elem_of_dropna in Hv as [Hv Hvn].
    rewrite Forall_forall in Hinf. destruct (Hinf v Hv) as [Hp Hm].
    destruct v as [| | |x]; try done.
    pose proof (quantile_singleton _ x (3 # 10) E) as Hlo.
    pose proof (quantile_singleton _ x (7 # 10) E) as Hhi.
    split; [done|]. split; [done|].
    intros i c Hc. rewrite regime_col_lookup, Hc. simpl. f_equal.
    destruct (F.isna c) eqn:Hna.
    + destruct c; try done. apply label_regime_nan.
    + assert (Hin : c ∈ dropna (volatility_col bs)).
      { apply elem_of_dropna. split; [|done].
        by eapply list_elem_of_lookup_2. }
      rewrite E in Hin. apply list_elem_of_singleton in Hin as ->.
      unfold label_regime. fold (low_thr bs) in Hlo.
      by rewrite (eqv_le (Fin x) (low_thr bs) eq_refl (eqv_sym _ _ Hlo)).
  - simpl in Hlen. lia.
Qed.

Lemma thresholds_collapse_witness :
  F.eqv (low_thr [bar_calm; bar_flat_zero]) (Fin 1)
  /\ F.eqv (high_thr [bar_calm; bar_flat_zero]) (Fin 1)
  /\ regime_col [bar_calm; bar_flat_zero] !! 0%nat = Some LOW_VOL
  /\ regime_col [bar_calm; bar_flat_zero] !! 1%nat = Some MID_VOL.
Proof.
  assert (H1 : (length (dropna (volatility_col [bar_calm; bar_flat_zero]))
                < 2)%nat) by (vm_compute; lia).
  assert (H2 : Forall (fun v => v <> PInf /\ v <> NInf)
                 (volatility_col [bar_calm; bar_flat_zero])).
  { repeat constructor; discriminate. }
  pose proof (thresholds_collapse [bar_calm; bar_flat_zero] H1 H2)
    as (Hlo & Hhi & Hlab).
  split; [exact Hlo|]. split; [exact Hhi|]. split.
  - exact (Hlab 0%nat (Fin (1 # 1)) eq_refl).
  - exact (Hlab 1%nat NaN eq_refl).
Defined.

(** C3 fails as stated: a single bar with a defined volatility is labelled
    LOW_VOL, not MID_VOL. *)
Lemma single_bar_is_low :
  ~ (forall bs, (length bs < 2)%nat ->
       forall i r, regime_col bs !! i = Some r -> r = MID_VOL).
Proof.
  intros H. specialize (H [bar_calm]).
  cut (LOW_VOL = MID_VOL); [discriminate|].
  apply (H ltac:(simpl; lia) 0%nat). reflexivity.
Qed.

(** ** Volatility of one bar *)




(** ** The aggregator *)

#[global] Instance name_le_trans : Transitive name_le.
Proof.
  intros a b c Hab Hbc.
  destruct a, b, c; vm_compute in Hab, Hbc |- *; congruence.
Qed.

#[global] Instance name_le_total : Total name_le.
Proof. intros a b. destruct a, b; vm_compute; auto. Qed.

Lemma group_keys_elem keys r : r ∈ group_keys keys <-> r ∈ keys.
Proof.
  unfold group_keys. by rewrite merge_sort_Permutation, elem_of_remove_dups.
Qed.

Lemma group_keys_NoDup keys : NoDup (group_keys keys).
Proof.
  unfold group_keys. rewrite merge_sort_Permutation. apply NoDup_remove_dups.
Qed.

Lemma group_keys_sorted keys : StronglySorted name_le (group_keys keys).
Proof. apply (StronglySorted_merge_sort _). Qed.

Lemma groupby_mean_keys keys rets vols volumes :
  (groupby_mean keys rets vols volumes).*1 = group_keys keys.
Proof.
  unfold groupby_mean. rewrite <- list_fmap_compose.
  apply list_fmap_id.
Qed.

Lemma elem_of_groupby_mean keys rets vols volumes k st :
  (k, st) ∈ groupby_mean keys rets vols volumes
  <-> k ∈ keys
      /\ st = mkStats (mean (select k keys rets)) (mean (select k keys vols))
                      (mean (select k keys volumes)).
Proof.
  unfold groupby_mean. rewrite list_elem_of_fmap. split.
  - intros (k' & E & Hk). rewrite group_keys_elem in Hk.
    injection E as -> ->. by split.
  - intros (Hk & ->). exists k. split; [done|]. by rewrite group_keys_elem.
Qed.

(** Names sort as HIGH_VOL, LOW_VOL, MID_VOL; a sorted list of distinct
    labels is the part of that list it contains. *)
Lemma sorted_distinct_labels (l : list Regime) :
  StronglySorted name_le l -> NoDup l ->
  l = filter (fun r => r ∈ l) [HIGH_VOL; LOW_VOL; MID_VOL].
Proof.
  intros Hs Hn.
  destruct l as [|a [|b [|c [|d l]]]].
  - done.
  - by destruct a.
  - apply StronglySorted_inv in Hs as [_ Hab].
    apply Forall_cons in Hab as [Hab _].
    apply NoDup_cons in Hn as [Hn _]. rewrite not_elem_of_cons in Hn.
    destruct Hn as [Hn _].
    destruct a, b; try done; by vm_compute in Hab.
  - apply StronglySorted_inv in Hs as [Hs Hab].
    apply Forall_cons in Hab as [Hab _].
    apply StronglySorted_inv in Hs as [_ Hbc].
    apply Forall_cons in Hbc as [Hbc _].
    rewrite !NoDup_cons, !not_elem_of_cons in Hn.
    destruct Hn as ((Hab' & Hac' & _) & (Hbc' & _) & _).
    destruct a, b; try done; try (by vm_compute in Hab);
      destruct c; try done; by vm_compute in Hbc.
  - exfalso. rewrite !NoDup_cons, !not_elem_of_cons in Hn.
    destruct Hn as ((Hab & Hac & Had & _) & (Hbc & Hbd & _) & (Hcd & _) & _).
    destruct a, b; try done; destruct c; try done; destruct d; done.
Qed.

(** C4 (amended).  The statistics table has exactly one row for each label
    that occurs in the regime column and no other row, and its rows are in
    the order of the label names as strings: HIGH_VOL, LOW_VOL, MID_VOL. *)
Theorem stats_rows keys rets vols volumes :
  let rows := (groupby_mean keys rets vols volumes).*1 in
  NoDup rows
  /\ (forall r, r ∈ rows <-> r ∈ keys)
  /\ StronglySorted name_le rows
  /\ rows = filter (fun r => r ∈ keys) [HIGH_VOL; LOW_VOL; MID_VOL].
Proof.
  intros rows. unfold rows. rewrite groupby_mean_keys.
  split; [apply group_keys_NoDup|].
  split; [apply group_keys_elem|].
  split; [apply group_keys_sorted|].
  rewrite (sorted_distinct_labels (group_keys keys))
    by (apply group_keys_sorted || apply group_keys_NoDup).
  apply list_filter_iff. intros r. apply group_keys_elem.
Qed.

(** C4 fails as stated: with a low and a high bar the rows are HIGH_VOL,
    LOW_VOL, which is not the order LOW_VOL, MID_VOL, HIGH_VOL. *)
Lemma rows_not_low_mid_high :
  ~ (forall bs, sublist (regime_stats bs).*1 [LOW_VOL; MID_VOL; HIGH_VOL]).
Proof.
  intros H. specialize (H [bar_calm; bar_wild]).
  change ((regime_stats [bar_calm; bar_wild]).*1)
    with ((groupby_mean (regime_col [bar_calm; bar_wild])
             (return_col [bar_calm; bar_wild])
             (volatility_col [bar_calm; bar_wild])
             (volume_col [bar_calm; bar_wild])).*1) in H.
  rewrite groupby_mean_keys in H.
  assert (E : group_keys (regime_col [bar_calm; bar_wild])
              = [HIGH_VOL; LOW_VOL]) by (vm_compute; reflexivity).
  rewrite E in H.
  repeat match goal with
         | H : sublist _ _ |- _ => inversion H; clear H; subst
         end.
Qed.

(** ** Rows of a group *)





Lemma mean_cons_nan col : mean (NaN :: col) = mean col.
Proof. reflexivity. Qed.




(** ** Returns *)










(** ** Running the two functions *)

Lemma analyze_regimes_run path df fs :
  call (analyze_regimes path) df fs
  = match Os.makedirs (Path.dirname path) true fs with
    | inl e => (Raise e, mkWorld (classified df) fs)
    | inr fs1 =>
        match Os.write_file path (Csv (regime_stats (bars df))) fs1 with
        | inl e => (Raise e, mkWorld (classified df) fs1)
        | inr fs2 => (Ok (classified df), mkWorld (classified df) fs2)
        end
    end.
Proof.
  unfold call, analyze_regimes, mbind, M_bind, get_frame, modify_frame,
    on_disk. simpl.
  destruct (Os.makedirs (Path.dirname path) true fs) as [e|fs1]; [done|].
  simpl. by destruct (Os.write_file _ _ fs1).
Qed.

Lemma save_to_excel_run filename df fs :
  call (save_to_excel filename) df fs
  = match Os.makedirs (Path.dirname filename) true fs with
    | inl e => (Raise e, mkWorld df fs)
    | inr fs1 =>
        match Os.write_file filename (Xlsx df) fs1 with
        | inl e => (Raise e, mkWorld df fs1)
        | inr fs2 => (Ok tt, mkWorld df fs2)
        end
    end.
Proof.
  unfold call, save_to_excel, mbind, M_bind, get_frame, on_disk. simpl.
  destruct (Os.makedirs (Path.dirname filename) true fs) as [e|fs1]; [done|].
  simpl. by destruct (Os.write_file _ _ fs1).
Qed.



(** ** Sink paths *)

Lemma split_bare p :
  Path.has_sep p = false ->
  Path.upto_last_sep p = EmptyString /\ Path.after_last_sep p = p.
Proof. destruct p as [|c r]; [done|]. simpl. by intros ->. Qed.

Lemma dirname_bare p : Path.has_sep p = false -> Path.dirname p = EmptyString.
Proof.
  intros H. unfold Path.dirname. by rewrite (proj1 (split_bare p H)).
Qed.

Lemma makedirs_empty exist_ok fs :
  Os.makedirs EmptyString exist_ok fs = inl (FileNotFoundError EmptyString).
Proof. unfold Os.makedirs. simpl. by rewrite orb_true_r. Qed.

(** C10.  For a destination without a directory part, [os.path.dirname] is
    the empty string and [os.makedirs] raises [FileNotFoundError] on it:
    both [save_to_excel] and [analyze_regimes] raise, and nothing is
    written to the disk. *)
Theorem bare_filename_raises filename df fs :
  Path.has_sep filename = false ->
  Path.dirname filename = EmptyString
  /\ call (save_to_excel filename) df fs
     = (Raise (FileNotFoundError EmptyString), mkWorld df fs)
  /\ call (analyze_regimes filename) df fs
     = (Raise (FileNotFoundError EmptyString), mkWorld (classified df) fs).
Proof.
  intros H. split; [by apply dirname_bare|].
  rewrite save_to_excel_run, analyze_regimes_run, (dirname_bare _ H).
  by rewrite makedirs_empty.
Qed.

Lemma bare_filename_raises_witness :
  call (analyze_regimes "regime_stats.csv") (fetched [bar_calm]) empty_disk
  = (Raise (FileNotFoundError EmptyString),
     mkWorld (classified (fetched [bar_calm])) empty_disk).
Proof.
  apply (bare_filename_raises "regime_stats.csv" (fetched [bar_calm])
           empty_disk).
  reflexivity.
Defined.

(** ** Empty input *)

Lemma makedirs_bare name fs :
  Path.has_sep name = false ->
  Os.makedirs name true fs
  = match Os.mkdir name fs with
    | inr fs2 => inr fs2
    | inl e => if negb (Os.isdir name fs) then inl e else inr fs
    end.
Proof.
  intros H. unfold Os.makedirs. simpl. unfold Path.split.
  destruct (split_bare name H) as [-> ->]. simpl.
  by destruct (Path.nonempty name).
Qed.

Lemma isdir_mkdir p q fs fl :
  Os.isdir p (mkFS ({[ q ]} ∪ dirs fs) fl)
  = Path.nonempty p
    && (bool_decide (Path.strip_head p = q) || Os.isdir p fs).
Proof.
  unfold Os.isdir. simpl. destruct (Path.nonempty p); [|done]. simpl.
  rewrite <- bool_decide_or. apply bool_decide_ext. set_solver.
Qed.

(** C8.  An empty frame is accepted: the three derived columns and the
    statistics are empty, and with the default destination (on a disk where
    [output] is not a regular file and the destination is not a directory)
    [analyze_regimes] returns the frame and writes the empty table. *)
Theorem empty_input fs :
  Os.isfile "output" fs = false ->
  Os.isdir "output/regime_stats.csv" fs = false ->
  volatility_col [] = [] /\ return_col [] = [] /\ regime_col [] = []
  /\ regime_stats [] = []
  /\ exists fs',
       call (analyze_regimes "output/regime_stats.csv") (fetched []) fs
       = (Ok (mkDF [] (Some []) (Some []) (Some [])),
          mkWorld (mkDF [] (Some []) (Some []) (Some [])) fs')
       /\ files fs' !! "output/regime_stats.csv" = Some (Csv []).
Proof.
  intros Hfile Hdir. do 4 (split; [reflexivity|]).
  rewrite analyze_regimes_run.
  change (Path.dirname "output/regime_stats.csv") with "output".
  rewrite makedirs_bare by reflexivity.
  change (regime_stats (bars (fetched []))) with (@nil (Regime * RegimeStats)).
  change (classified (fetched [])) with (mkDF [] (Some []) (Some []) (Some [])).
  unfold Os.mkdir, Os.exists_. rewrite Hfile, orb_false_r.
  change (negb (Path.nonempty "output")) with false. cbv iota.
  destruct (Os.isdir "output" fs) eqn:Hout; cbv iota.
  - simpl negb. cbv iota. unfold Os.write_file.
    change (negb (Path.nonempty "output/regime_stats.csv")) with false.
    cbv iota. rewrite Hdir. cbv iota. unfold Os.parent_ok.
    change (Path.dirname (Path.strip_head "output/regime_stats.csv"))
      with "output".
    rewrite Hout, orb_true_r. simpl negb. cbv iota.
    eexists. split; [reflexivity|]. simpl. apply lookup_insert_eq.
  - unfold Os.parent_ok at 1.
    change (Path.dirname (Path.strip_head "output")) with EmptyString.
    change (negb (Path.nonempty "")) with true. simpl negb. cbv iota.
    unfold Os.write_file.
    change (negb (Path.nonempty "output/regime_stats.csv")) with false.
    cbv iota. rewrite isdir_mkdir, Hdir, orb_false_r.
    change (Path.strip_head "output") with "output".
    change (Path.strip_head "output/regime_stats.csv")
      with "output/regime_stats.csv".
    rewrite (bool_decide_eq_false_2 ("output/regime_stats.csv" = "output"))
      by discriminate.
    rewrite andb_false_r. cbv iota. unfold Os.parent_ok.
    change (Path.dirname (Path.strip_head "output/regime_stats.csv"))
      with "output".
    rewrite isdir_mkdir.
    change (Path.strip_head "output") with "output".
    rewrite (bool_decide_eq_true_2 ("output" = "output")) by reflexivity.
    change (Path.nonempty "output") with true. simpl. 
    eexists. split; [reflexivity|]. simpl. apply lookup_insert_eq.
Qed.

Lemma empty_input_witness :
  exists fs',
    call (analyze_regimes "output/regime_stats.csv") (fetched []) empty_disk
    = (Ok (mkDF [] (Some []) (Some []) (Some [])),
       mkWorld (mkDF [] (Some []) (Some []) (Some [])) fs')
    /\ files fs' !! "output/regime_stats.csv" = Some (Csv []).
Proof.
  apply (empty_input empty_disk); reflexivity.
Defined.

(** ** [os.makedirs] never exhausts its recursion bound *)

Lemma length_upto_after p :
  (String.length (Path.upto_last_sep p) + String.length (Path.after_last_sep p)
   = String.length p)%nat.
Proof.
  induction p as [|c r IH]; [done|]. simpl.
  destruct (Path.is_sep c || Path.has_sep r); simpl; lia.
Qed.

Lemma length_rstrip_sep p :
  (String.length (Path.rstrip_sep p) <= String.length p)%nat.
Proof.
  induction p as [|c r IH]; [done|]. simpl.
  destruct (Path.rstrip_sep r) eqn:E; simpl in *.
  - destruct (Path.is_sep c); simpl; lia.
  - lia.
Qed.

Lemma length_strip_head p :
  (String.length (Path.strip_head p) <= String.length p)%nat.
Proof.
  unfold Path.strip_head.
  destruct (Path.nonempty p && negb (Path.all_sep p)); [|done].
  apply length_rstrip_sep.
Qed.

Lemma split_head_shorter p :
  Path.nonempty (Path.split p).2 = true ->
  (String.length (Path.split p).1 < String.length p)%nat.
Proof.
  unfold Path.split. simpl. intros Ht.
  pose proof (length_upto_after p). pose proof (length_strip_head (Path.upto_last_sep p)).
  destruct (Path.after_last_sep p); [done|]. simpl in *. lia.
Qed.

Lemma split_head_le p :
  (String.length (Path.split p).1 <= String.length p)%nat.
Proof.
  unfold Path.split. simpl.
  pose proof (length_upto_after p).
  pose proof (length_strip_head (Path.upto_last_sep p)). lia.
Qed.

Lemma makedirs_rec_fuel fuel name exist_ok fs :
  (String.length name < fuel)%nat ->
  Os.makedirs_rec fuel name exist_ok fs <> inl RecursionError.
Proof.
  revert name fs. induction fuel as [|fuel IH]; intros name fs Hlen; [lia|].
  assert (Hfin : forall fs1,
             match Os.mkdir name fs1 with
             | inr fs2 => inr fs2
             | inl e => if negb exist_ok || negb (Os.isdir name fs1)
                        then inl e else inr fs1
             end <> inl RecursionError).
  { intros fs1. unfold Os.mkdir.
    repeat (match goal with |- context [if ?b then _ else _] => destruct b end);
      done. }
  cbn [Os.makedirs_rec].
  destruct (Path.split name) as [h0 t0] eqn:E0.
  assert (Hh : forall h t,
             (if Path.nonempty t0 then (h0, t0) else Path.split h0) = (h, t) ->
             Path.nonempty t = true ->
             (String.length h < fuel)%nat).
  { intros h t E Ht.
    pose proof (split_head_le name) as Hle. rewrite E0 in Hle. simpl in Hle.
    destruct (Path.nonempty t0) eqn:Et0.
    - injection E as <- <-.
      pose proof (split_head_shorter name) as Hs. rewrite E0 in Hs.
      simpl in Hs. specialize (Hs Et0). lia.
    - pose proof (split_head_shorter h0) as Hs. rewrite E in Hs.
      simpl in Hs. specialize (Hs Ht). lia. }
  destruct (if Path.nonempty t0 then (h0, t0) else Path.split h0)
    as [h t] eqn:E.
  cbv beta iota zeta.
  destruct (Path.nonempty h && Path.nonempty t && negb (Os.exists_ h fs))
    eqn:Ec; [|apply Hfin].
  assert (Ht : Path.nonempty t = true).
  { destruct (Path.nonempty h), (Path.nonempty t); done. }
  specialize (IH h fs (Hh h t eq_refl Ht)).
  destruct (Os.makedirs_rec fuel h exist_ok fs) as [[]|fs1];
    try done; destruct (String.eqb t "."); try done; apply Hfin.
Qed.

Lemma makedirs_total name exist_ok fs :
  Os.makedirs name exist_ok fs <> inl RecursionError.
Proof. unfold Os.makedirs. apply makedirs_rec_fuel. lia. Qed.

(* ================================================================= *)
(** * Further properties of the classifier and the aggregator *)

Lemma le_trans a b c :
  F.le a b = true -> F.le b c = true -> F.le a c = true.
Proof.
  destruct a, b, c; simpl; try done.
  rewrite !Qle_bool_true. lra.
Qed.

Lemma label_regime_mono lo hi v w :
  F.le v w = true ->
  (regime_rank (label_regime lo hi v) <= regime_rank (label_regime lo hi w))%nat.
Proof.
  intros Hvw. unfold label_regime, F.ge.
  destruct (F.le v lo) eqn:Hv; [simpl; lia|].
  destruct (F.le w lo) eqn:Hw.
  { by rewrite (le_trans v w lo) in Hv. }
  destruct (F.le hi v) eqn:Hhv.
  - by rewrite (le_trans hi v w).
  - destruct (F.le hi w); simpl; lia.
Qed.

(** X1.  Labels are monotone in the volatility: a bar whose volatility is at
    most that of another bar never gets a higher label (LOW_VOL below
    MID_VOL below HIGH_VOL). *)
Theorem labels_monotone bs i j v w :
  volatility_col bs !! i = Some v ->
  volatility_col bs !! j = Some w ->
  F.le v w = true ->
  exists ri rj,
    regime_col bs !! i = Some ri /\ regime_col bs !! j = Some rj
    /\ (regime_rank ri <= regime_rank rj)%nat.
Proof.
  intros Hi Hj Hvw. rewrite !regime_col_lookup, Hi, Hj. simpl.
  eexists _, _. split; [done|]. split; [done|].
  by apply label_regime_mono.
Qed.

Lemma labels_monotone_witness :
  exists ri rj,
    regime_col five_bars !! 1%nat = Some ri
    /\ regime_col five_bars !! 3%nat = Some rj
    /\ (regime_rank ri <= regime_rank rj)%nat.
Proof.
  apply (labels_monotone five_bars 1 3 (Fin (204 # 10200)) (Fin (42 # 1050)));
    reflexivity.
Defined.

(** ** Thresholds lie between two defined volatilities *)

Lemma defined_finite v :
  no_infinity v -> F.isna v = false -> exists x, v = Fin x.
Proof. intros [??] ?. destruct v; try done. by eexists. Qed.

Lemma quantile_between col q :
  Forall no_infinity col -> dropna col <> [] -> (0 <= q)%Q -> (q <= 1)%Q ->
  exists x y t,
    Fin x ∈ dropna col /\ Fin y ∈ dropna col
    /\ (x <= y)%Q /\ (0 <= t)%Q /\ (t < 1)%Q
    /\ quantile col q = Fin (x + (y - x) * t).
Proof.
  intros Hinf Hne Hq0 Hq1. unfold quantile.
  set (xs := merge_sort F.le_sort (dropna col)).
  destruct (sorted_dropna col xs eq_refl) as (Hs & Hnn & Hlen).
  assert (Hxs : xs <> []).
  { intros E. rewrite E in Hlen. by destruct (dropna col). }
  assert (Hn1 : (1 <= length xs)%nat) by (destruct xs; [done | simpl; lia]).
  destruct (interpolate_unfold xs q Hxs Hq0 Hq1) as (a & b & Ha & Hb & ->).
  destruct (position_bounds (length xs) q Hn1 Hq0 Hq1)
    as (Hk & Hkc & _ & _ & Ht0 & Ht1).
  assert (Hin : forall i v, xs !! i = Some v ->
                  v ∈ dropna col /\ exists x, v = Fin x).
  { intros i v Hv.
    assert (Hd : v ∈ dropna col).
    { rewrite <- (merge_sort_Permutation F.le_sort).
      by eapply list_elem_of_lookup_2. }
    split; [done|]. apply elem_of_dropna in Hd as [Hc Hna].
    rewrite Forall_forall in Hinf. by apply defined_finite; [apply Hinf|]. }
  destruct (Hin _ _ Ha) as (Hda & x & ->).
  destruct (Hin _ _ Hb) as (Hdb & y & ->).
  exists x, y, (position (length xs) q
                - inject_Z (Qfloor (position (length xs) q)))%Q.
  repeat split; try done.
  apply le_Fin, le_sort_le; [done|].
  eapply (sorted_lookup_le F.le_sort xs); [done| |done..]. lia.
Qed.

Lemma low_thr_above_minimum bs v :
  Forall no_infinity (volatility_col bs) ->
  v ∈ volatility_col bs -> F.isna v = false ->
  (forall w, w ∈ volatility_col bs -> F.isna w = false -> F.le v w = true) ->
  F.le v (low_thr bs) = true.
Proof.
  intros Hinf Hv Hn Hmin.
  assert (Hne : dropna (volatility_col bs) <> []).
  { intros E. assert (H : v ∈ dropna (volatility_col bs))
      by by apply elem_of_dropna.
    rewrite E in H. by apply not_elem_of_nil in H. }
  destruct (quantile_between _ (3 # 10) Hinf Hne)
    as (x & y & t & Hx & _ & Hxy & Ht0 & Ht1 & E); [lra..|].
  unfold low_thr. rewrite E.
  apply elem_of_dropna in Hx as [Hx Hxn].
  specialize (Hmin _ Hx Hxn). destruct v; try done.
  apply le_Fin in Hmin. apply le_Fin.
  pose proof (Qmult_le_0_compat (y - x) t). lra.
Qed.

Lemma high_thr_below_maximum bs v :
  Forall no_infinity (volatility_col bs) ->
  v ∈ volatility_col bs -> F.isna v = false ->
  (forall w, w ∈ volatility_col bs -> F.isna w = false -> F.le w v = true) ->
  F.le (high_thr bs) v = true.
Proof.
  intros Hinf Hv Hn Hmax.
  assert (Hne : dropna (volatility_col bs) <> []).
  { intros E. assert (H : v ∈ dropna (volatility_col bs))
      by by apply elem_of_dropna.
    rewrite E in H. by apply not_elem_of_nil in H. }
  destruct (quantile_between _ (7 # 10) Hinf Hne)
    as (x & y & t & _ & Hy & Hxy & Ht0 & Ht1 & E); [lra..|].
  unfold high_thr. rewrite E.
  apply elem_of_dropna in Hy as [Hy Hyn].
  specialize (Hmax _ Hy Hyn). destruct v; try done.
  apply le_Fin in Hmax. apply le_Fin.
  pose proof (Qmult_le_0_compat (y - x) (1 - t)). lra.
Qed.

(** X2.  With no infinite volatility, a bar with the smallest defined
    volatility is LOW_VOL, and a bar with the largest defined volatility is
    HIGH_VOL or LOW_VOL, never MID_VOL. *)
Theorem extreme_volatilities bs i v :
  Forall no_infinity (volatility_col bs) ->
  volatility_col bs !! i = Some v ->
  F.isna v = false ->
  ((forall w, w ∈ volatility_col bs -> F.isna w = false -> F.le v w = true) ->
   regime_col bs !! i = Some LOW_VOL)
  /\ ((forall w, w ∈ volatility_col bs -> F.isna w = false ->
                 F.le w v = true) ->
      regime_col bs !! i = Some LOW_VOL
      \/ regime_col bs !! i = Some HIGH_VOL).
Proof.
  intros Hinf Hi Hn.
  assert (Hv : v ∈ volatility_col bs) by by eapply list_elem_of_lookup_2.
  rewrite regime_col_lookup, Hi. simpl. unfold label_regime, F.ge. split.
  - intros Hmin. by rewrite (low_thr_above_minimum bs v).
  - intros Hmax. rewrite (high_thr_below_maximum bs v) by done.
    destruct (F.le v (low_thr bs)); auto.
Qed.

Lemma extreme_volatilities_witness :
  regime_col five_bars !! 0%nat = Some LOW_VOL
  /\ (regime_col five_bars !! 4%nat = Some LOW_VOL
      \/ regime_col five_bars !! 4%nat = Some HIGH_VOL).
Proof.
  assert (Hinf : Forall no_infinity (volatility_col five_bars)).
  { repeat constructor; discriminate. }
  assert (Hall : forall w, w ∈ volatility_col five_bars ->
            F.le (Fin (1 # 100)) w = true /\ F.le w (Fin (5 # 100)) = true).
  { intros w Hw. vm_compute in Hw.
    repeat (apply elem_of_cons in Hw as [->|Hw]; [by vm_compute|]).
    by apply not_elem_of_nil in Hw. }
  split.
  - apply (extreme_volatilities five_bars 0 (Fin (1 # 100)) Hinf);
      [reflexivity | reflexivity |].
    intros w Hw _. by apply Hall.
  - apply (extreme_volatilities five_bars 4 (Fin (515 # 10300)) Hinf);
      [reflexivity | reflexivity |].
    intros w Hw _. apply (le_trans _ (Fin (5 # 100))); [by apply Hall|].
    by vm_compute.
Defined.

Lemma minimum_exists col :
  dropna col <> [] ->
  exists i v, col !! i = Some v /\ F.isna v = false
    /\ forall w, w ∈ col -> F.isna w = false -> F.le v w = true.
Proof.
  intros Hne.
  set (xs := merge_sort F.le_sort (dropna col)).
  destruct (sorted_dropna col xs eq_refl) as (Hs & Hnn & Hlen).
  destruct xs as [|x0 xs'] eqn:E.
  { by destruct (dropna col). }
  assert (Hx0 : x0 ∈ dropna col).
  { rewrite <- (merge_sort_Permutation F.le_sort). fold xs. rewrite E.
    apply list_elem_of_here. }
  apply elem_of_dropna in Hx0 as [Hc Hn].
  apply list_elem_of_lookup_1 in Hc as [i Hi].
  exists i, x0. split; [done|]. split; [done|].
  intros w Hw Hwn.
  assert (Hwx : w ∈ x0 :: xs').
  { rewrite <- E. unfold xs. rewrite merge_sort_Permutation.
    by apply elem_of_dropna. }
  apply list_elem_of_lookup_1 in Hwx as [j Hj].
  apply le_sort_le; [done|].
  eapply (sorted_lookup_le F.le_sort (x0 :: xs') 0 j); [done|lia|done|done].
Qed.

(** X3.  As soon as one volatility is defined (and none is infinite), some
    bar is labelled LOW_VOL, so the statistics table has a LOW_VOL row. *)
Theorem low_vol_always_present bs :
  Forall no_infinity (volatility_col bs) ->
  dropna (volatility_col bs) <> [] ->
  LOW_VOL ∈ regime_col bs /\ exists st, (LOW_VOL, st) ∈ regime_stats bs.
Proof.
  intros Hinf Hne.
  destruct (minimum_exists _ Hne) as (i & v & Hi & Hn & Hmin).
  assert (Hlow : LOW_VOL ∈ regime_col bs).
  { apply (list_elem_of_lookup_2 _ i).
    rewrite regime_col_lookup, Hi. simpl. unfold label_regime.
    rewrite (low_thr_above_minimum bs v); try done.
    by eapply list_elem_of_lookup_2. }
  split; [done|]. eexists. apply elem_of_groupby_mean. by split.
Qed.

Lemma low_vol_always_present_witness : LOW_VOL ∈ regime_col level_bars.
Proof.
  apply (low_vol_always_present level_bars).
  - repeat constructor; discriminate.
  - discriminate.
Defined.

(** ** Means of bounded cells *)














(** ** Shape of the return column *)




(* ================================================================= *)
(** * Further properties of the sinks *)

(** ** What the disk operations change *)






(** ** Destinations one directory below the working directory *)

Lemma rstrip_bare p : Path.has_sep p = false -> Path.rstrip_sep p = p.
Proof.
  induction p as [|c r IH]; [done|]. simpl.
  intros H. apply orb_false_iff in H as [Hc Hr].
  rewrite (IH Hr), Hc. by destruct r.
Qed.

Lemma strip_head_bare p : Path.has_sep p = false -> Path.strip_head p = p.
Proof.
  intros H. unfold Path.strip_head.
  destruct (Path.nonempty p && negb (Path.all_sep p)); [|done].
  by apply rstrip_bare.
Qed.

Lemma rstrip_file p :
  Path.nonempty (Path.after_last_sep p) = true -> Path.rstrip_sep p = p.
Proof.
  induction p as [|c r IH]; [done|]. simpl.
  destruct (Path.is_sep c || Path.has_sep r) eqn:E.
  - intros H. rewrite (IH H). destruct r; [done|done].
  - intros _. apply orb_false_iff in E as [Hc Hr].
    rewrite (rstrip_bare r Hr), Hc. by destruct r.
Qed.

Lemma strip_head_file p :
  Path.nonempty (Path.after_last_sep p) = true -> Path.strip_head p = p.
Proof.
  intros H. unfold Path.strip_head.
  destruct (Path.nonempty p && negb (Path.all_sep p)); [|done].
  by apply rstrip_file.
Qed.

Lemma isdir_true p fs :
  Path.strip_head p = p -> Os.isdir p fs = true -> p ∈ dirs fs.
Proof.
  unfold Os.isdir. intros ->. intros H.
  apply andb_true_iff in H as [_ H]. by apply bool_decide_eq_true in H.
Qed.

Lemma isdir_false p fs :
  Path.strip_head p = p -> Path.nonempty p = true ->
  Os.isdir p fs = false -> p ∉ dirs fs.
Proof.
  unfold Os.isdir. intros -> ->. simpl. by intros H%bool_decide_eq_false.
Qed.

(** [os.makedirs(dirname(path), exist_ok=True)] followed by writing [path],
    for a path [d/f] with a bare directory [d]. *)
Lemma sink_one_level path c fs :
  Path.has_sep (Path.dirname path) = false ->
  Path.nonempty (Path.dirname path) = true ->
  Path.nonempty (Path.after_last_sep path) = true ->
  Os.isfile (Path.dirname path) fs = false ->
  Os.isdir path fs = false ->
  exists fs1,
    Os.makedirs (Path.dirname path) true fs = inr fs1
    /\ Os.write_file path c fs1
       = inr (mkFS ({[ Path.dirname path ]} ∪ dirs fs)
                   (<[ path := c ]> (files fs))).
Proof.
  set (d := Path.dirname path). intros Hbare Hd Hf Hfile Hdir.
  assert (Hsd : Path.strip_head d = d) by by apply strip_head_bare.
  assert (Hsp : Path.strip_head path = path) by by apply strip_head_file.
  assert (Hp : Path.nonempty path = true).
  { destruct path; [done|done]. }
  assert (Hne : path <> d).
  { intros E. pose proof (split_head_shorter path) as Hs.
    unfold Path.split in Hs. simpl in Hs. specialize (Hs Hf).
    fold (Path.dirname path) in Hs. fold d in Hs. rewrite <- E in Hs. lia. }
  assert (Hnd : path ∉ dirs fs) by by apply isdir_false.
  assert (Hpar : forall fs1, d ∈ dirs fs1 -> Os.parent_ok path fs1 = true).
  { intros fs1 Hin. unfold Os.parent_ok. rewrite Hsp. fold d.
    unfold Os.isdir. rewrite Hd, Hsd. simpl. by apply bool_decide_eq_true. }
  rewrite makedirs_bare by done. unfold Os.mkdir, Os.exists_.
  rewrite Hd, Hfile, orb_false_r. simpl negb. cbv iota.
  destruct (Os.isdir d fs) eqn:Edir; cbv iota.
  - simpl negb. cbv iota. exists fs. split; [done|].
    apply isdir_true in Edir; [|done].
    unfold Os.write_file. rewrite Hp, Hdir, (Hpar fs Edir). simpl.
    f_equal. f_equal. symmetry. apply subseteq_union_1_L.
    by apply singleton_subseteq_l.
  - assert (Hok : Os.parent_ok d fs = true).
    { unfold Os.parent_ok. rewrite Hsd, (dirname_bare d Hbare). done. }
    rewrite Hok. simpl negb. cbv iota. rewrite Hsd.
    eexists. split; [done|].
    unfold Os.write_file. rewrite Hp. simpl negb. cbv iota.
    rewrite isdir_mkdir, Hsp, Hp, Hdir, orb_false_r.
    rewrite (bool_decide_eq_false_2 (path = d)) by done. simpl.
    rewrite Hpar by (simpl; set_solver). done.
Qed.

Lemma sinks_succeed_aux filename df fs :
  Path.has_sep (Path.dirname filename) = false ->
  Path.nonempty (Path.dirname filename) = true ->
  Path.nonempty (Path.after_last_sep filename) = true ->
  Os.isfile (Path.dirname filename) fs = false ->
  Os.isdir filename fs = false ->
  call (save_to_excel filename) df fs
  = (Ok tt,
     mkWorld df (mkFS ({[ Path.dirname filename ]} ∪ dirs fs)
                      (<[ filename := Xlsx df ]> (files fs))))
  /\ call (analyze_regimes filename) df fs
     = (Ok (classified df),
        mkWorld (classified df)
          (mkFS ({[ Path.dirname filename ]} ∪ dirs fs)
                (<[ filename := Csv (regime_stats (bars df)) ]> (files fs)))).
Proof.
  intros H1 H2 H3 H4 H5. split.
  - rewrite save_to_excel_run.
    destruct (sink_one_level filename (Xlsx df) fs H1 H2 H3 H4 H5)
      as (fs1 & -> & ->). done.
  - rewrite analyze_regimes_run.
    destruct (sink_one_level filename (Csv (regime_stats (bars df))) fs
                H1 H2 H3 H4 H5) as (fs1 & -> & ->). done.
Qed.





Lemma sinks_blocked_aux filename df fs :
  Path.has_sep (Path.dirname filename) = false ->
  Os.isfile (Path.dirname filename) fs = true ->
  Os.isdir (Path.dirname filename) fs = false ->
  call (save_to_excel filename) df fs
  = (Raise (FileExistsError (Path.dirname filename)), mkWorld df fs)
  /\ call (analyze_regimes filename) df fs
     = (Raise (FileExistsError (Path.dirname filename)),
        mkWorld (classified df) fs).
Proof.
  intros Hbare Hfile Hdir.
  assert (Hm : Os.makedirs (Path.dirname filename) true fs
               = inl (FileExistsError (Path.dirname filename))).
  { rewrite makedirs_bare by done. unfold Os.mkdir, Os.exists_.
    rewrite Hfile, Hdir, orb_true_r.
    assert (Hd : Path.nonempty (Path.dirname filename) = true).
    { unfold Os.isfile in Hfile. by apply andb_true_iff in Hfile as [? _]. }
    by rewrite Hd. }
  by rewrite save_to_excel_run, analyze_regimes_run, Hm.
Qed.

(** X10.  When the directory part [d] of the destination (one level, no
    separator) is taken by a regular file, [os.makedirs] raises
    [FileExistsError] in spite of [exist_ok=True]: both sinks raise it and
    the disk is unchanged; [analyze_regimes] has by then added its three
    columns to the frame. *)
Theorem sinks_blocked_by_file filename df fs :
  Path.has_sep (Path.dirname filename) = false ->
  Os.isfile (Path.dirname filename) fs = true ->
  Os.isdir (Path.dirname filename) fs = false ->
  call (save_to_excel filename) df fs
  = (Raise (FileExistsError (Path.dirname filename)), mkWorld df fs)
  /\ call (analyze_regimes filename) df fs
     = (Raise (FileExistsError (Path.dirname filename)),
        mkWorld (classified df) fs).
Proof. apply sinks_blocked_aux. Qed.

Lemma sinks_blocked_by_file_witness :
  call (save_to_excel "data/btc_data.xlsx") (fetched five_bars)
    disk_data_taken
  = (Raise (FileExistsError "data"),
     mkWorld (fetched five_bars) disk_data_taken).
Proof.
  apply (sinks_blocked_by_file "data/btc_data.xlsx" (fetched five_bars)
           disk_data_taken); reflexivity.
Defined.

(* ================================================================= *)
(** * Properties of the fetching functions and of [main] *)

#[global] Instance date_le_trans : Transitive date_le.
Proof. unfold date_le. intros a b c. lia. Qed.

#[global] Instance date_le_total : Total date_le.
Proof. unfold date_le. intros a b. lia. Qed.

Lemma sorted_reverse {A} (R : relation A) (l : list A) :
  StronglySorted (flip R) l -> StronglySorted R (reverse l).
Proof.
  induction 1 as [|x l Hs IH Hx]; [constructor|].
  rewrite reverse_cons. apply StronglySorted_app_2; [|done|].
  - intros x1 x2 H1 H2. apply list_elem_of_singleton in H2 as ->.
    rewrite Forall_forall in Hx. apply Hx. by apply elem_of_reverse.
  - repeat constructor.
Qed.

Lemma strictly_descending_NoDup (l : list DailyBar) :
  StronglySorted (fun a b => (date b < date a)%Z) l -> NoDup (date <$> l).
Proof.
  induction 1 as [|x l Hs IH Hx]; [constructor|].
  rewrite fmap_cons. constructor; [|done].
  intros Hin. apply list_elem_of_fmap in Hin as (y & Ey & Hy).
  rewrite Forall_forall in Hx. specialize (Hx y Hy). lia.
Qed.

Lemma sorted_strict (l : list DailyBar) :
  StronglySorted date_le l -> NoDup (date <$> l) ->
  StronglySorted (fun a b => (date a < date b)%Z) l.
Proof.
  induction 1 as [|x l Hs IH Hx]; [constructor|].
  rewrite fmap_cons. intros Hn. apply NoDup_cons in Hn as [Hx' Hn].
  constructor; [by apply IH|].
  apply Forall_forall. intros y Hy.
  rewrite Forall_forall in Hx. specialize (Hx y Hy). unfold date_le in Hx.
  assert (date x <> date y).
  { intros E. apply Hx'. rewrite E. by apply list_elem_of_fmap_2. }
  lia.
Qed.

Section FetchProperties.

Variable http_get : string -> Response.
Variable to_datetime : string -> Z.

(** X11.  When [fetch_upbit_data] returns a frame, the reply had a status
    outside 400-599 and a non-empty candle list, and the frame holds
    exactly the rows of that list, in ascending order of date, without
    derived columns.  In particular it never returns an empty frame. *)
Theorem fetch_returns_sorted_rows market count df :
  fetch_upbit_data http_get to_datetime market count = inr df ->
  exists status_code data,
    http_get (candles_url market count) = Reply status_code data
    /\ is_error_status status_code = false
    /\ data <> []
    /\ bars df <> []
    /\ bars df ≡ₚ to_bar to_datetime <$> data
    /\ StronglySorted date_le (bars df)
    /\ df = fetched (bars df).
Proof.
  unfold fetch_upbit_data.
  destruct (http_get (candles_url market count)) as [|status data]; [done|].
  destruct (is_error_status status) eqn:Es; [done|].
  destruct data as [|c data]; [done|]. unfold frame_of_candles.
  intros [= <-]. exists status, (c :: data).
  split; [done|]. split; [done|]. split; [done|]. simpl bars.
  split; [|split; [|split]].
  - intros E. apply (f_equal length) in E. revert E.
    by rewrite merge_sort_Permutation.
  - apply merge_sort_Permutation.
  - apply (StronglySorted_merge_sort _).
  - done.
Qed.

(** X12.  The API sends the newest candle first.  When the dates of the
    list are strictly descending, the frame returned is the list in
    reverse order. *)
Theorem fetch_reverses_newest_first market count status_code data :
  http_get (candles_url market count) = Reply status_code data ->
  is_error_status status_code = false ->
  data <> [] ->
  StronglySorted
    (fun c1 c2 => (to_datetime (Candle.candle_date_time_kst c2)
                   < to_datetime (Candle.candle_date_time_kst c1))%Z) data ->
  fetch_upbit_data http_get to_datetime market count
  = inr (fetched (reverse (to_bar to_datetime <$> data))).
Proof.
  intros Hget Hs Hne Hdesc. unfold fetch_upbit_data. rewrite Hget, Hs.
  destruct data as [|c data]; [done|]. unfold frame_of_candles.
  f_equal. f_equal.
  set (l := to_bar to_datetime <$> c :: data).
  assert (Hl : StronglySorted (fun a b => (date b < date a)%Z) l).
  { unfold l. eapply StronglySorted_fmap; [|exact Hdesc]. done. }
  assert (Hanti : AntiSymm eq (fun a b : DailyBar => (date a < date b)%Z)).
  { intros a b ??. lia. }
  apply (StronglySorted_unique (fun a b => (date a < date b)%Z)).
  - apply sorted_strict; [apply (StronglySorted_merge_sort _)|].
    rewrite merge_sort_Permutation. by apply strictly_descending_NoDup.
  - by apply sorted_reverse.
  - by rewrite merge_sort_Permutation, reverse_Permutation.
Qed.

End FetchProperties.

Example sample_fetch :
  candles_url "KRW-BTC" 365
  = "https://api.upbit.com/v1/candles/days?market=KRW-BTC&count=365"
  /\ date <$> (to_bar sample_to_datetime <$> sample_candles)
     = [20240103090000; 20240102090000; 20240101090000]%Z
  /\ fetch_upbit_data sample_http sample_to_datetime "KRW-BTC" 365
     = inr (fetched (reverse (to_bar sample_to_datetime <$> sample_candles)))
  /\ fetch_upbit_data sample_http sample_to_datetime "KRW-ETH" 365
     = inl (HTTPError 404).
Proof. vm_compute. repeat split; reflexivity. Qed.

Lemma fetch_returns_sorted_rows_witness :
  exists status_code data,
    sample_http (candles_url "KRW-BTC" 365) = Reply status_code data
    /\ is_error_status status_code = false
    /\ data <> []
    /\ bars (fetched (reverse (to_bar sample_to_datetime <$> sample_candles)))
       <> []
    /\ bars (fetched (reverse (to_bar sample_to_datetime <$> sample_candles)))
       ≡ₚ to_bar sample_to_datetime <$> data
    /\ StronglySorted date_le
         (bars (fetched
                  (reverse (to_bar sample_to_datetime <$> sample_candles))))
    /\ fetched (reverse (to_bar sample_to_datetime <$> sample_candles))
       = fetched
           (bars (fetched
                    (reverse (to_bar sample_to_datetime <$> sample_candles)))).
Proof.
  apply (fetch_returns_sorted_rows sample_http sample_to_datetime
           "KRW-BTC" 365).
  vm_compute. reflexivity.
Defined.

Lemma fetch_reverses_newest_first_witness :
  fetch_upbit_data sample_http sample_to_datetime "KRW-BTC" 365
  = inr (fetched (reverse (to_bar sample_to_datetime <$> sample_candles))).
Proof.
  apply (fetch_reverses_newest_first sample_http sample_to_datetime
           "KRW-BTC" 365 200 sample_candles).
  - reflexivity.
  - reflexivity.
  - discriminate.
  - repeat constructor; by vm_compute.
Defined.


Section PipelineProperties.

Variable http_get : string -> Response.
Variable to_datetime : string -> Z.


(** X14.  [main], up to the charts: when the reply is a non-empty candle
    list with a good status and nothing on the disk is in the way, the
    spreadsheet holds the fetched rows without the derived columns (it is
    written before the analysis), the statistics file holds the table of
    those rows, and the frame that goes on to the charts is the classified
    one. *)
Theorem main_exports_before_analysis fs status_code data :
  http_get (candles_url "KRW-BTC" 365) = Reply status_code data ->
  is_error_status status_code = false ->
  data <> [] ->
  Os.isfile "data" fs = false ->
  Os.isfile "output" fs = false ->
  Os.isdir "data/btc_data.xlsx" fs = false ->
  Os.isdir "output/regime_stats.csv" fs = false ->
  let bs := merge_sort date_le (to_bar to_datetime <$> data) in
  main_before_charts http_get to_datetime fs
  = (inr (classified (fetched bs)),
     mkFS ({[ "output" ]} ∪ ({[ "data" ]} ∪ dirs fs))
          (<[ "output/regime_stats.csv" := Csv (regime_stats bs) ]>
             (<[ "data/btc_data.xlsx" := Xlsx (fetched bs) ]> (files fs)))).
Proof.
  intros Hget Hs Hne Hfd Hfo Hdx Hdc bs.
  unfold main_before_charts, fetch_upbit_data. rewrite Hget, Hs.
  destruct data as [|c data]; [done|]. unfold frame_of_candles. fold bs.
  destruct (sinks_succeed_aux "data/btc_data.xlsx" (fetched bs) fs)
    as [-> _]; try done.
  cbv beta iota. simpl frame. simpl disk.
  set (fs1 := mkFS _ _).
  destruct (sinks_succeed_aux "output/regime_stats.csv" (fetched bs) fs1)
    as [_ ->]; try done.
  - unfold Os.isfile in *. simpl in *.
    apply bool_decide_eq_false. apply bool_decide_eq_false in Hfo.
    by rewrite lookup_insert_ne.
  - unfold Os.isdir in *. simpl in *.
    apply bool_decide_eq_false. apply bool_decide_eq_false in Hdc.
    rewrite elem_of_union, elem_of_singleton. by intros [|].
Qed.

(** X15.  [main] aborts at the first failing step and keeps what was
    written before: when [output] is a regular file, the analysis raises
    [FileExistsError] although the spreadsheet is already on the disk, and
    no statistics are written. *)
Theorem main_keeps_spreadsheet_on_failure fs status_code data :
  http_get (candles_url "KRW-BTC" 365) = Reply status_code data ->
  is_error_status status_code = false ->
  data <> [] ->
  Os.isfile "data" fs = false ->
  Os.isdir "data/btc_data.xlsx" fs = false ->
  Os.isfile "output" fs = true ->
  Os.isdir "output" fs = false ->
  let bs := merge_sort date_le (to_bar to_datetime <$> data) in
  main_before_charts http_get to_datetime fs
  = (inl (OsError (FileExistsError "output")),
     mkFS ({[ "data" ]} ∪ dirs fs)
          (<[ "data/btc_data.xlsx" := Xlsx (fetched bs) ]> (files fs))).
Proof.
  intros Hget Hs Hne Hfd Hdx Hfo Hdo bs.
  unfold main_before_charts, fetch_upbit_data. rewrite Hget, Hs.
  destruct data as [|c data]; [done|]. unfold frame_of_candles. fold bs.
  destruct (sinks_succeed_aux "data/btc_data.xlsx" (fetched bs) fs)
    as [-> _]; try done.
  cbv beta iota. simpl frame. simpl disk.
  set (fs1 := mkFS _ _).
  destruct (sinks_blocked_aux "output/regime_stats.csv" (fetched bs) fs1)
    as [_ ->]; try done.
  - unfold Os.isfile in *. simpl in *.
    apply bool_decide_eq_true. apply bool_decide_eq_true in Hfo.
    by rewrite lookup_insert_ne.
  - unfold Os.isdir in *. simpl in *.
    apply bool_decide_eq_false. apply bool_decide_eq_false in Hdo.
    rewrite elem_of_union, elem_of_singleton. by intros [|].
Qed.

End PipelineProperties.


Lemma main_exports_before_analysis_witness :
  let bs := merge_sort date_le (to_bar sample_to_datetime <$> sample_candles) in
  main_before_charts sample_http sample_to_datetime empty_disk
  = (inr (classified (fetched bs)),
     mkFS ({[ "output" ]} ∪ ({[ "data" ]} ∪ dirs empty_disk))
          (<[ "output/regime_stats.csv" := Csv (regime_stats bs) ]>
             (<[ "data/btc_data.xlsx" := Xlsx (fetched bs) ]>
                (files empty_disk)))).
Proof.
  apply (main_exports_before_analysis sample_http sample_to_datetime
           empty_disk 200 sample_candles);
    reflexivity || discriminate.
Defined.

Lemma main_keeps_spreadsheet_on_failure_witness :
  let bs := merge_sort date_le (to_bar sample_to_datetime <$> sample_candles) in
  main_before_charts sample_http sample_to_datetime disk_output_taken
  = (inl (OsError (FileExistsError "output")),
     mkFS ({[ "data" ]} ∪ dirs disk_output_taken)
          (<[ "data/btc_data.xlsx" := Xlsx (fetched bs) ]>
             (files disk_output_taken))).
Proof.
  apply (main_keeps_spreadsheet_on_failure sample_http sample_to_datetime
           disk_output_taken 200 sample_candles);
    reflexivity || discriminate.
Defined.

(* ================================================================= *)
(** * Properties of the price chart *)






